(** * JS2Native: the [$lazy] dispatcher of the built-in modules

    A shallow embedding of [src/bun.js/bindings/JS2Native.cpp].  The host
    function [jsDollarLazy] receives one integer token and resolves it to a
    native function: a negative token indexes the generated pointer table
    [js2nativePointers], the tags [Blob], [File] and [Bytes] of
    [ReadableStreamTag] select one of three stream-source loaders, and any
    other token crashes the process. *)

From Stdlib Require Import ZArith List Ascii String Bool Lia.
Import ListNotations.

Local Open Scope Z_scope.

(** ** 32-bit integers

    [int] and [int32_t] values are integers of Z in the range below; the
    arithmetic of the source is written with its two's-complement wrap-around. *)

Definition INT32_MIN : Z := - 2 ^ 31.
Definition INT32_MAX : Z := 2 ^ 31 - 1.

Definition wrap32 (z : Z) : Z := (z + 2 ^ 31) mod 2 ^ 32 - 2 ^ 31.

Definition neg32 (a : Z) : Z := wrap32 (- a).
Definition sub32 (a b : Z) : Z := wrap32 (a - b).

(** ** [enum ReadableStreamTag : int32_t] *)

Module ReadableStreamTag.

Inductive t : Type :=
| Invalid
| JavaScript
| Blob
| File
| Direct
| Bytes.

Definition value (tag : t) : Z :=
  match tag with
  | Invalid => -1
  | JavaScript => 0
  | Blob => 1
  | File => 2
  | Direct => 3
  | Bytes => 4
  end.

End ReadableStreamTag.

(** ** The engine's values

    [JSC::JSValue], [JSC::EncodedJSValue] and their operations belong to
    JavaScriptCore; the dispatcher only uses the interface below.
    [asInt32] yields an [int32_t] whatever the value is (the engine does not
    check the type there), and [encode]/[decode] are the engine's pair of
    conversions between a value and its ABI form. *)

Class JSCValues : Type := {
  JSValue : Type;
  EncodedJSValue : Type;
  isInt32 : JSValue -> bool;
  asInt32 : JSValue -> Z;
  asInt32_range : forall v, INT32_MIN <= asInt32 v <= INT32_MAX;
  encode : JSValue -> EncodedJSValue;
  decode : EncodedJSValue -> JSValue;
  decode_encode : forall v, decode (encode v) = v
}.

(** [JSC::CallFrame]: the number of arguments the caller passed and the
    argument slots of the frame.  A slot at or past [argumentCount] holds
    whatever the stack holds there; [uncheckedArgument] reads a slot without
    looking at the count. *)

Record CallFrame `{JSCValues} : Type := {
  argumentCount : nat;
  argumentSlot : nat -> JSValue
}.

Definition uncheckedArgument `{JSCValues} (callFrame : CallFrame) (argument : nat)
  : JSValue :=
  argumentSlot callFrame argument.

(** ** printf-style formatting of the one [%s] of an assertion message *)

Fixpoint format_s (fmt arg : string) : string :=
  match fmt with
  | EmptyString => EmptyString
  | String "%"%char (String "s"%char rest) => (arg ++ rest)%string
  | String c rest => String c (format_s rest arg)
  end.

(** ** C arrays

    The element at a position of an array, if the position is inside it. *)

Fixpoint element_at {A : Type} (a : list A) (index : Z) : option A :=
  match a with
  | [] => None
  | x :: rest => if index =? 0 then Some x else element_at rest (index - 1)
  end.

(** ** Outcomes, observable events and the dispatcher's monad *)

(** How a run of native code ends.  [UndefinedBehaviour index] stands for the
    read of [js2nativePointers[index]] outside the array: C++ gives it no
    meaning and nothing in the program reports it.  The state beside it is
    the state at the read; what a compiled program does from there (it may
    fault, it may call whatever the memory holds and return) is not
    described. *)

Inductive Outcome (A : Type) : Type :=
| Returned (result : A)
| AssertionFailed (message : string)
| Crashed (info : string)
| UndefinedBehaviour (index : Z).

Arguments Returned {A} result.
Arguments AssertionFailed {A} message.
Arguments Crashed {A} info.
Arguments UndefinedBehaviour {A} index.

(** The native functions the dispatcher can call. *)

Inductive Callee : Type :=
| TableEntry (index : Z)
| ByteBlobLoad
| FileReaderLoad
| ByteStreamLoad.

Section Dispatcher.

Context `{JSC : JSCValues}.

(** [JSC::JSGlobalObject*]; [Zig::GlobalObject] derives from it and the
    [static_cast] of the source yields the pointer to the same object. *)
Variable JSGlobalObject : Type.

Definition ZigGlobalObject : Type := JSGlobalObject.

Definition static_cast_ZigGlobalObject (g : JSGlobalObject) : ZigGlobalObject := g.

(** Ghost record of what a run did, oldest event first. *)
Inductive Event : Type :=
| EvTableRead (index : Z)
| EvInvoke (callee : Callee) (global : JSGlobalObject).

(** Everything a native function can read and change: the heap of the VM. *)
Variable World : Type.

Record State : Type := {
  world : World;
  events : list Event
}.

Definition NativeFn (R : Type) : Type := JSGlobalObject -> World -> R * World.

(** The dispatcher's monad: a run threads the state and ends in an outcome;
    after anything but [Returned] the rest of the program does not run. *)
Definition M (A : Type) : Type := State -> Outcome A * State.

Definition ret {A} (a : A) : M A := fun st => (Returned a, st).

Definition bind {A B} (m : M A) (k : A -> M B) : M B :=
  fun st =>
    match m st with
    | (Returned a, st') => k a st'
    | (AssertionFailed message, st') => (AssertionFailed message, st')
    | (Crashed info, st') => (Crashed info, st')
    | (UndefinedBehaviour index, st') => (UndefinedBehaviour index, st')
    end.

Local Notation "x <- m ;; k" := (bind m (fun x => k))
  (at level 100, m at next level, right associativity).
Local Notation "m ;;; k" := (bind m (fun _ => k))
  (at level 100, right associativity).

Definition log (e : Event) (st : State) : State :=
  {| world := world st; events := events st ++ [e] |}.

(** Calling a native function: it runs on the current world. *)
Definition invoke {R} (callee : Callee) (fn : NativeFn R) (global : JSGlobalObject)
  : M R :=
  fun st =>
    let (r, w) := fn global (world st) in
    (Returned r, {| world := w; events := events st ++ [EvInvoke callee global] |}).

(** [table[index]] on a C array of [length table] elements: no bounds
    check, so an index outside the array is undefined behaviour. *)
Definition array_read {A} (table : list A) (index : Z) : M A :=
  fun st =>
    let st' := log (EvTableRead index) st in
    match element_at table index with
    | Some entry => (Returned entry, st')
    | None => (UndefinedBehaviour index, st')
    end.

(** Modelled from the spec: the macro [ASSERT_WITH_MESSAGE] of
    [wtf/Assertions.h] is not part of the sources; a violated assertion
    stops the run and carries the formatted message. *)
Definition ASSERT_WITH_MESSAGE (assertion : bool) (fmt : string) (arg : unit -> string)
  : M unit :=
  fun st =>
    if assertion then (Returned tt, st)
    else (AssertionFailed (format_s fmt (arg tt)), st).

(** Modelled from the spec: the macro [CRASH_WITH_INFO] of
    [wtf/Assertions.h] is not part of the sources; it terminates the
    process with the given diagnostic and never returns. *)
Definition CRASH_WITH_INFO {A} (info : string) : M A :=
  fun st => (Crashed info, st).

(** ** The environment of the dispatcher *)

(** [target.toWTFString(lexicalGlobalObject).utf8().data()] *)
Variable toWTFString : JSValue -> JSGlobalObject -> string.

(** [JS2NativeGenerated::js2nativePointers] of the generated header. *)
Variable js2nativePointers : list (NativeFn JSValue).

Variable ByteBlob__JSReadableStreamSource__load : NativeFn EncodedJSValue.
Variable FileReader__JSReadableStreamSource__load : NativeFn EncodedJSValue.
Variable ByteStream__JSReadableStreamSource__load : NativeFn EncodedJSValue.

(** The build flavour: [#if BUN_DEBUG]. *)
Variable BUN_DEBUG : bool.

(** ** [JSC_DEFINE_HOST_FUNCTION(jsDollarLazy, ...)] *)

Definition jsDollarLazy (lexicalGlobalObject : JSGlobalObject) (callFrame : CallFrame)
  : M EncodedJSValue :=
  let target := uncheckedArgument callFrame 0 in
  (if BUN_DEBUG
   then ASSERT_WITH_MESSAGE (isInt32 target)
          "In call to $lazy: expected Int32, got %s"
          (fun _ => toWTFString target lexicalGlobalObject)
   else ret tt) ;;;
  let id := asInt32 target in
  if id <? 0 then
    let index := sub32 (neg32 id) 1 in
    fn <- array_read js2nativePointers index ;;
    r <- invoke (TableEntry index) fn (static_cast_ZigGlobalObject lexicalGlobalObject) ;;
    ret (encode r)
  else if id =? ReadableStreamTag.value ReadableStreamTag.Blob then
    invoke ByteBlobLoad ByteBlob__JSReadableStreamSource__load lexicalGlobalObject
  else if id =? ReadableStreamTag.value ReadableStreamTag.File then
    invoke FileReaderLoad FileReader__JSReadableStreamSource__load lexicalGlobalObject
  else if id =? ReadableStreamTag.value ReadableStreamTag.Bytes then
    invoke ByteStreamLoad ByteStream__JSReadableStreamSource__load lexicalGlobalObject
  else if BUN_DEBUG then
    CRASH_WITH_INFO "Invalid call to @native. If you aren't calling this directly then bug @paperdave as they made a mistake in the code generator"
  else
    CRASH_WITH_INFO "Invalid call to @native. This should never be reached and is a bug in Bun or you got a handle to our internal code.".

End Dispatcher.

Arguments EvTableRead {JSGlobalObject} index.
Arguments EvInvoke {JSGlobalObject} callee global.
Arguments world {JSGlobalObject World} s.
Arguments events {JSGlobalObject World} s.
Arguments Build_State {JSGlobalObject World} world events.
Arguments ret {JSGlobalObject World A} a _.
Arguments bind {JSGlobalObject World A B} m k _.
Arguments log {JSGlobalObject World} e st.

(** ** Vocabulary of the properties *)

(** The call argument is the integer token [t]. *)
Definition carries_token `{JSCValues} (callFrame : CallFrame) (t : Z) : Prop :=
  isInt32 (uncheckedArgument callFrame 0) = true /\
  asInt32 (uncheckedArgument callFrame 0) = t.

(** The three tags the [switch] of the dispatcher has a case for. *)
Definition dispatched_tag (t : Z) : Prop :=
  t = ReadableStreamTag.value ReadableStreamTag.Blob \/
  t = ReadableStreamTag.value ReadableStreamTag.File \/
  t = ReadableStreamTag.value ReadableStreamTag.Bytes.

(** A token of the generated domain for a table of [n] entries. *)
Definition table_token (n : nat) (t : Z) : Prop :=
  t < 0 /\ 0 <= - t - 1 < Z.of_nat n.

(** A native function whose result does not depend on the state of the
    world it runs in. *)
Definition deterministic {G W R : Type} (fn : G -> W -> R * W) : Prop :=
  forall g w1 w2, fst (fn g w1) = fst (fn g w2).

(** The loader the dispatcher has for a tag, with the name it is called by. *)
Definition loader_for {G W R : Type} (blob file bytes : G -> W -> R * W)
    (tag : ReadableStreamTag.t) : option (Callee * (G -> W -> R * W)) :=
  match tag with
  | ReadableStreamTag.Blob => Some (ByteBlobLoad, blob)
  | ReadableStreamTag.File => Some (FileReaderLoad, file)
  | ReadableStreamTag.Bytes => Some (ByteStreamLoad, bytes)
  | _ => None
  end.

(** What one successful call of [fn] leaves behind: the world [fn] produced
    and the events of the run appended to the trail. *)
Definition after_call {G W R : Type} (st : State G W) (trail : list (Event G))
    (fn : G -> W -> R * W) (g : G) : State G W :=
  {| world := snd (fn g (world st)); events := events st ++ trail |}.

(** The type check of debug builds lets the call through. *)
Definition passes_type_check `{JSCValues} (debug : bool) (callFrame : CallFrame)
  : Prop :=
  debug = false \/ isInt32 (uncheckedArgument callFrame 0) = true.

(** The number of native functions a trail of events called, and the
    positions at which it read the pointer table. *)
Definition invocations {G : Type} (trail : list (Event G)) : nat :=
  List.length
    (filter (fun e => match e with EvInvoke _ _ => true | EvTableRead _ => false end)
       trail).

Definition table_reads {G : Type} (trail : list (Event G)) : list Z :=
  flat_map (fun e => match e with EvTableRead index => [index] | EvInvoke _ _ => [] end)
    trail.

(** The two diagnostics of the failure path, by build flavour. *)
Definition crash_info (debug : bool) : string :=
  if debug
  then "Invalid call to @native. If you aren't calling this directly then bug @paperdave as they made a mistake in the code generator"
  else "Invalid call to @native. This should never be reached and is a bug in Bun or you got a handle to our internal code.".

(** ** A small runtime to run the dispatcher on *)

Module Sample.

Inductive value : Type :=
| Int32 (payload : Z)
| Cell (address : Z).

Definition describe (v : value) (g : nat) : string :=
  match v with
  | Int32 _ => "a number"
  | Cell _ => "[object Object]"
  end.

#[export] Instance values : JSCValues.
Proof.
  refine {| JSValue := value;
            EncodedJSValue := value;
            isInt32 := fun v => match v with Int32 _ => true | Cell _ => false end;
            asInt32 := fun v => match v with Int32 z | Cell z => wrap32 z end;
            encode := fun v => v;
            decode := fun v => v |}.
  - intros [z | z]; unfold wrap32, INT32_MIN, INT32_MAX;
      pose proof (Z.mod_pos_bound (z + 2 ^ 31) (2 ^ 32) ltac:(lia)); lia.
  - reflexivity.
Defined.

(** The world counts the stream sources built so far. *)
Definition fixed (n : Z) : NativeFn nat nat value :=
  fun _ w => (Int32 n, S w).

Definition counting : NativeFn nat nat value :=
  fun _ w => (Int32 (Z.of_nat w), S w).

Definition table : list (NativeFn nat nat value) := [fixed 100; counting].

(** A table of functions that all ignore the world. *)
Definition steady_table : list (NativeFn nat nat value) := [fixed 100; fixed 200].

Definition blob : NativeFn nat nat value := fixed 11.
Definition file : NativeFn nat nat value := fixed 22.
Definition bytes : NativeFn nat nat value := fixed 44.

Definition call (v : value) : CallFrame :=
  {| argumentCount := 1; argumentSlot := fun _ => v |}.

(** A call with three arguments, the first of them [v]. *)
Definition call3 (v : value) : CallFrame :=
  {| argumentCount := 3;
     argumentSlot := fun i => match i with O => v | _ => Cell 4096 end |}.

Definition start : State nat nat := {| world := 0%nat; events := [] |}.

Definition lazy (debug : bool) (callFrame : CallFrame)
  : M nat nat value :=
  jsDollarLazy nat nat describe table blob file bytes debug 7%nat callFrame.

(** The same on the steady table. *)
Definition lazy_steady (debug : bool) (callFrame : CallFrame)
  : M nat nat value :=
  jsDollarLazy nat nat describe steady_table blob file bytes debug 7%nat callFrame.

End Sample.

(** * Properties *)

(** ** Arrays and 32-bit arithmetic *)

Lemma element_at_nth_error {A : Type} (a : list A) :
  forall index, 0 <= index -> element_at a index = nth_error a (Z.to_nat index).
Proof.
  induction a as [| x rest IH]; intros index Hindex; simpl.
  - now destruct (Z.to_nat index).
  - destruct (Z.eqb_spec index 0) as [-> | Hne]; [reflexivity |].
    replace (Z.to_nat index) with (S (Z.to_nat (index - 1))) by lia.
    simpl. apply IH. lia.
Qed.

Lemma element_at_inside {A : Type} (a : list A) :
  forall index, 0 <= index < Z.of_nat (List.length a) ->
    exists x, element_at a index = Some x.
Proof.
  intros index Hindex. rewrite element_at_nth_error by lia.
  destruct (nth_error a (Z.to_nat index)) as [x |] eqn:Hnth; [now exists x |].
  apply nth_error_None in Hnth. lia.
Qed.

Lemma element_at_outside {A : Type} (a : list A) :
  forall index, index < 0 \/ Z.of_nat (List.length a) <= index ->
    element_at a index = None.
Proof.
  induction a as [| x rest IH]; intros index Hindex; simpl; [reflexivity |].
  simpl List.length in Hindex.
  destruct (Z.eqb_spec index 0) as [-> | Hne]; [lia |].
  apply IH. lia.
Qed.

Lemma wrap32_small z : INT32_MIN <= z <= INT32_MAX -> wrap32 z = z.
Proof.
  unfold wrap32, INT32_MIN, INT32_MAX. intros Hz.
  rewrite Z.mod_small by lia. lia.
Qed.

(** [-id - 1] never overflows for a negative [int]: even for the least one,
    where [-id] wraps, the subtraction wraps back. *)
Lemma table_index id : INT32_MIN <= id < 0 -> sub32 (neg32 id) 1 = - id - 1.
Proof.
  unfold INT32_MIN. intros Hid. unfold sub32, neg32.
  destruct (Z.eq_dec id (- 2 ^ 31)) as [-> | Hne]; [reflexivity |].
  rewrite (wrap32_small (- id)) by (unfold INT32_MIN, INT32_MAX; lia).
  apply wrap32_small. unfold INT32_MIN, INT32_MAX. lia.
Qed.

Lemma append_empty_r (s : string) : (s ++ "")%string = s.
Proof. induction s as [| c s IH]; simpl; [reflexivity | now rewrite IH]. Qed.

Lemma format_expected_int32 text :
  format_s "In call to $lazy: expected Int32, got %s" text
  = ("In call to $lazy: expected Int32, got " ++ text)%string.
Proof. cbn. now rewrite append_empty_r. Qed.

(** ** The dispatcher *)

Section Properties.

Context `{JSC : JSCValues}.
Variables JSGlobalObject World : Type.
Variable toWTFString : JSValue -> JSGlobalObject -> string.
Variable js2nativePointers : list (NativeFn JSGlobalObject World JSValue).
Variables blob file bytes : NativeFn JSGlobalObject World EncodedJSValue.

Local Notation "'dispatch_on' table" :=
  (jsDollarLazy JSGlobalObject World toWTFString table blob file bytes)
  (at level 10, table at level 9, only parsing).
Local Notation "'dispatch'" := (dispatch_on js2nativePointers) (only parsing).
Local Notation "'tableLength'" := (List.length js2nativePointers) (only parsing).

Lemma carries_token_passes debug callFrame t :
  carries_token callFrame t -> passes_type_check debug callFrame.
Proof. intros [Hint _]. now right. Qed.

Lemma type_check_passed debug g callFrame (st : State JSGlobalObject World) :
  passes_type_check debug callFrame ->
  (if debug
   then ASSERT_WITH_MESSAGE JSGlobalObject World
          (isInt32 (uncheckedArgument callFrame 0))
          "In call to $lazy: expected Int32, got %s"
          (fun _ => toWTFString (uncheckedArgument callFrame 0) g)
   else ret tt) st = (Returned tt, st).
Proof.
  unfold ASSERT_WITH_MESSAGE, ret.
  intros [-> | ->]; [reflexivity | now destruct debug].
Qed.

Lemma dispatch_negative debug g callFrame st :
  let id := asInt32 (uncheckedArgument callFrame 0) in
  let index := - id - 1 in
  passes_type_check debug callFrame -> id < 0 ->
  dispatch debug g callFrame st =
    match element_at js2nativePointers index with
    | Some fn =>
        (Returned (encode (fst (fn g (world st)))),
         after_call st [EvTableRead index; EvInvoke (TableEntry index) g] fn g)
    | None => (UndefinedBehaviour index, log (EvTableRead index) st)
    end.
Proof.
  intros id index Hcheck Hneg.
  assert (Hidx : sub32 (neg32 id) 1 = index).
  { apply table_index. pose proof (asInt32_range (uncheckedArgument callFrame 0)).
    subst id. lia. }
  assert (Hlt : (id <? 0) = true) by now apply Z.ltb_lt.
  unfold jsDollarLazy, bind. rewrite (type_check_passed _ _ _ _ Hcheck).
  fold id. rewrite Hlt, Hidx.
  unfold array_read, invoke, static_cast_ZigGlobalObject, ret.
  destruct (element_at js2nativePointers index) as [fn |]; [| reflexivity].
  unfold after_call, log. simpl.
  destruct (fn g (world st)) as [r w]. simpl. now rewrite <- app_assoc.
Qed.

Lemma invoke_run {R} callee (fn : NativeFn JSGlobalObject World R) g st :
  invoke JSGlobalObject World callee fn g st
  = (Returned (fst (fn g (world st))), after_call st [EvInvoke callee g] fn g).
Proof.
  unfold invoke, after_call. now destruct (fn g (world st)).
Qed.

Lemma dispatch_nonnegative debug g callFrame st :
  let id := asInt32 (uncheckedArgument callFrame 0) in
  passes_type_check debug callFrame -> 0 <= id ->
  dispatch debug g callFrame st =
    if id =? 1 then
      (Returned (fst (blob g (world st))), after_call st [EvInvoke ByteBlobLoad g] blob g)
    else if id =? 2 then
      (Returned (fst (file g (world st))), after_call st [EvInvoke FileReaderLoad g] file g)
    else if id =? 4 then
      (Returned (fst (bytes g (world st))), after_call st [EvInvoke ByteStreamLoad g] bytes g)
    else (Crashed (crash_info debug), st).
Proof.
  intros id Hcheck Hpos.
  assert (Hge : (id <? 0) = false) by now apply Z.ltb_ge.
  unfold jsDollarLazy, bind. rewrite (type_check_passed _ _ _ _ Hcheck).
  fold id. rewrite Hge. unfold ReadableStreamTag.value.
  destruct (id =? 1); [apply invoke_run |].
  destruct (id =? 2); [apply invoke_run |].
  destruct (id =? 4); [apply invoke_run |].
  now destruct debug.
Qed.

Lemma dispatch_tag debug g callFrame st tag callee loader :
  passes_type_check debug callFrame ->
  asInt32 (uncheckedArgument callFrame 0) = ReadableStreamTag.value tag ->
  loader_for blob file bytes tag = Some (callee, loader) ->
  dispatch debug g callFrame st
  = (Returned (fst (loader g (world st))), after_call st [EvInvoke callee g] loader g).
Proof.
  intros Hcheck Hid Hloader.
  rewrite dispatch_nonnegative by (trivial; rewrite Hid; now destruct tag).
  rewrite Hid.
  destruct tag; simpl in Hloader; inversion Hloader; subst; reflexivity.
Qed.

Lemma dispatch_crash debug g callFrame st :
  let id := asInt32 (uncheckedArgument callFrame 0) in
  passes_type_check debug callFrame -> 0 <= id -> ~ dispatched_tag id ->
  dispatch debug g callFrame st = (Crashed (crash_info debug), st).
Proof.
  intros id Hcheck Hpos Hnot.
  rewrite dispatch_nonnegative by trivial. fold id.
  unfold dispatched_tag in Hnot. simpl in Hnot.
  destruct (Z.eqb_spec id 1); [tauto |].
  destruct (Z.eqb_spec id 2); [tauto |].
  destruct (Z.eqb_spec id 4); [tauto |].
  reflexivity.
Qed.

(** C1. For every negative token [t] with [0 <= -t-1 < N], [N] the number
    of entries of the pointer table, the dispatcher invokes exactly the entry
    [-t-1] of the table with the calling global object and returns the
    result of that function as it is: the returned value is the ABI form of
    the result and decodes to that very result, the world is the one the
    function left, and the run consists of the table read and the one call.
    For token [-1] the function is entry [0] of the table. *)
Theorem C1_negative_token_invokes_table_entry debug g callFrame t st :
  carries_token callFrame t ->
  t < 0 ->
  0 <= - t - 1 < Z.of_nat tableLength ->
  exists fn r,
    nth_error js2nativePointers (Z.to_nat (- t - 1)) = Some fn /\
    r = fst (fn g (world st)) /\
    dispatch debug g callFrame st
      = (Returned (encode r),
         after_call st [EvTableRead (- t - 1); EvInvoke (TableEntry (- t - 1)) g] fn g) /\
    decode (encode r) = r /\
    (t = -1 -> nth_error js2nativePointers 0 = Some fn).
Proof.
  intros Htoken Hneg Hrange.
  pose proof (carries_token_passes debug _ _ Htoken) as Hcheck.
  destruct Htoken as [_ Hid].
  destruct (element_at_inside js2nativePointers (- t - 1) Hrange) as [fn Hfn].
  exists fn, (fst (fn g (world st))).
  split; [now rewrite <- element_at_nth_error by lia |].
  split; [reflexivity |].
  split; [| split].
  - rewrite dispatch_negative by (trivial; lia). now rewrite Hid, Hfn.
  - apply decode_encode.
  - intros ->. now rewrite <- Hfn, element_at_nth_error by lia.
Qed.

(** C2. For a token equal to one of the three dispatched tags ([Blob],
    [File], [Bytes]) the dispatcher invokes exactly the loader of that tag
    with the calling global object and returns its result unchanged; the run
    consists of that one call, with no read of the pointer table, and the
    outcome is the same whatever the pointer table holds. *)
Theorem C2_reserved_tag_invokes_loader debug g callFrame tag callee loader st :
  carries_token callFrame (ReadableStreamTag.value tag) ->
  loader_for blob file bytes tag = Some (callee, loader) ->
  dispatch debug g callFrame st
    = (Returned (fst (loader g (world st))), after_call st [EvInvoke callee g] loader g) /\
  (forall index, ~ In (EvTableRead index) [EvInvoke callee g]) /\
  (forall table, dispatch_on table debug g callFrame st = dispatch debug g callFrame st).
Proof.
  intros Htoken Hloader.
  pose proof (carries_token_passes debug _ _ Htoken) as Hcheck.
  destruct Htoken as [_ Hid].
  split; [| split].
  - now apply dispatch_tag with (tag := tag).
  - intros index [Hin | []]. discriminate Hin.
  - intros table. unfold jsDollarLazy, bind.
    rewrite !(type_check_passed _ _ _ _ Hcheck). rewrite Hid.
    now destruct tag; simpl in Hloader; try discriminate Hloader.
Qed.

(** C3. For every non-negative token that is not one of the three dispatched
    tags the dispatcher reaches the failure path: the run ends in the crash,
    nothing was read from the table or invoked, and no value of any kind is
    returned to the caller. *)
Theorem C3_other_nonnegative_token_halts debug g callFrame t st :
  carries_token callFrame t ->
  0 <= t ->
  ~ dispatched_tag t ->
  dispatch debug g callFrame st = (Crashed (crash_info debug), st) /\
  (forall v, fst (dispatch debug g callFrame st) <> Returned v).
Proof.
  intros Htoken Hpos Hnot.
  pose proof (carries_token_passes debug _ _ Htoken) as Hcheck.
  destruct Htoken as [_ Hid].
  assert (Hrun : dispatch debug g callFrame st = (Crashed (crash_info debug), st)).
  { apply dispatch_crash; trivial; now rewrite Hid. }
  split; [exact Hrun |].
  intros v. now rewrite Hrun.
Qed.

(** C4 (amended). With the [Invalid] sentinel of [ReadableStreamTag] as the
    token the dispatcher does not reach the failure path: the sentinel is
    [-1], a negative token, so the dispatcher reads entry [0] of the pointer
    table without a check and, when the table has an entry, invokes it with
    the calling global object and returns its result.  No loader is invoked
    and the run never ends in the crash. *)
Theorem C4_invalid_sentinel_indexes_table debug g callFrame st :
  carries_token callFrame (ReadableStreamTag.value ReadableStreamTag.Invalid) ->
  ReadableStreamTag.value ReadableStreamTag.Invalid = -1 /\
  dispatch debug g callFrame st =
    match js2nativePointers with
    | fn0 :: _ =>
        (Returned (encode (fst (fn0 g (world st)))),
         after_call st [EvTableRead 0; EvInvoke (TableEntry 0) g] fn0 g)
    | [] => (UndefinedBehaviour 0, log (EvTableRead 0) st)
    end /\
  (forall info, fst (dispatch debug g callFrame st) <> Crashed info).
Proof.
  intros Htoken.
  pose proof (carries_token_passes debug _ _ Htoken) as Hcheck.
  destruct Htoken as [_ Hid]. simpl in Hid.
  assert (Hrun : dispatch debug g callFrame st =
    match js2nativePointers with
    | fn0 :: _ =>
        (Returned (encode (fst (fn0 g (world st)))),
         after_call st [EvTableRead 0; EvInvoke (TableEntry 0) g] fn0 g)
    | [] => (UndefinedBehaviour 0, log (EvTableRead 0) st)
    end).
  { rewrite dispatch_negative by (trivial; lia). rewrite Hid. simpl.
    now destruct js2nativePointers. }
  split; [reflexivity |]. split; [exact Hrun |].
  intros info. rewrite Hrun. now destruct js2nativePointers.
Qed.

(** C5. For every negative token [t] the dispatcher computes the index
    [-t-1] (the 32-bit arithmetic of the source yields exactly that number)
    and reads the table there with no bounds check: the read is the first
    thing the run does whatever the length of the table.  When
    [0 <= -t-1 < N] the entry exists, it is invoked and the run returns, so
    no out-of-range access happens; when [-t-1] is outside the table nothing
    intercepts the access: the run is the out-of-range read itself, not an
    assertion and not the crash diagnostic. *)
Theorem C5_negative_token_unchecked_table_access debug g callFrame t st :
  carries_token callFrame t ->
  t < 0 ->
  sub32 (neg32 t) 1 = - t - 1 /\
  (exists rest,
     events (snd (dispatch debug g callFrame st))
     = events st ++ EvTableRead (- t - 1) :: rest) /\
  (0 <= - t - 1 < Z.of_nat tableLength ->
     exists fn,
       nth_error js2nativePointers (Z.to_nat (- t - 1)) = Some fn /\
       dispatch debug g callFrame st
       = (Returned (encode (fst (fn g (world st)))),
          after_call st [EvTableRead (- t - 1); EvInvoke (TableEntry (- t - 1)) g] fn g)) /\
  (Z.of_nat tableLength <= - t - 1 ->
     dispatch debug g callFrame st
     = (UndefinedBehaviour (- t - 1), log (EvTableRead (- t - 1)) st)).
Proof.
  intros Htoken Hneg.
  pose proof (carries_token_passes debug _ _ Htoken) as Hcheck.
  destruct Htoken as [_ Hid].
  assert (Hrun := dispatch_negative debug g callFrame st Hcheck).
  cbv zeta in Hrun. rewrite Hid in Hrun. specialize (Hrun Hneg).
  split; [| split; [| split]].
  - apply table_index.
    pose proof (asInt32_range (uncheckedArgument callFrame 0)). lia.
  - rewrite Hrun.
    destruct (element_at js2nativePointers (- t - 1)) as [fn |].
    + now exists [EvInvoke (TableEntry (- t - 1)) g].
    + now exists [].
  - intros Hrange.
    destruct (element_at_inside js2nativePointers (- t - 1) Hrange) as [fn Hfn].
    exists fn. split; [now rewrite <- element_at_nth_error by lia |].
    now rewrite Hrun, Hfn.
  - intros Hout. rewrite Hrun.
    now rewrite element_at_outside by (right; exact Hout).
Qed.

(** C6. In a debug build a call whose argument is not integer-typed ends in
    an assertion failure whose message carries the textual form of the
    argument; this happens before the token is read: nothing was looked up
    or invoked and the state is untouched.  In a release build there is no
    such check: the run never ends in an assertion failure and the argument
    is read as an integer whatever it is, so the call behaves as any call
    whose argument yields the same integer. *)
Theorem C6_type_check_only_in_debug_builds g callFrame st :
  isInt32 (uncheckedArgument callFrame 0) = false ->
  dispatch true g callFrame st
    = (AssertionFailed
         ("In call to $lazy: expected Int32, got "
          ++ toWTFString (uncheckedArgument callFrame 0) g)%string, st) /\
  (forall message, fst (dispatch false g callFrame st) <> AssertionFailed message) /\
  (forall callFrame',
     asInt32 (uncheckedArgument callFrame' 0) = asInt32 (uncheckedArgument callFrame 0) ->
     dispatch false g callFrame st = dispatch false g callFrame' st).
Proof.
  intros Hnot.
  split; [| split].
  - unfold jsDollarLazy, bind, ASSERT_WITH_MESSAGE.
    now rewrite Hnot, format_expected_int32.
  - intros message.
    assert (Hcheck : passes_type_check false callFrame) by now left.
    destruct (Z.lt_ge_cases (asInt32 (uncheckedArgument callFrame 0)) 0) as [Hneg | Hpos].
    + rewrite dispatch_negative by trivial.
      now destruct (element_at _ _).
    + rewrite dispatch_nonnegative by trivial.
      destruct (_ =? 1); [discriminate |].
      destruct (_ =? 2); [discriminate |].
      destruct (_ =? 4); discriminate.
  - intros callFrame' Hsame.
    unfold jsDollarLazy, bind, ret. now rewrite Hsame.
Qed.

(** C8. For every valid token (a table token or a dispatched tag), when the
    function the token invokes is deterministic (the entry [-t-1] of the
    table for a negative token, the loader of the tag for a tag; nothing is
    asked of the other functions), every dispatch of the token with the same
    global object returns the same value: from any state, and in particular
    when the call is repeated in the state the first call left.  The
    dispatcher keeps nothing of its own between calls: the world a call
    leaves depends on the world it starts in only, not on what was
    dispatched before. *)
Theorem C8_repeated_dispatch_same_result debug g callFrame t st :
  carries_token callFrame t ->
  table_token tableLength t \/ dispatched_tag t ->
  (forall fn,
     t < 0 -> nth_error js2nativePointers (Z.to_nat (- t - 1)) = Some fn ->
     deterministic fn) ->
  (forall tag callee loader,
     t = ReadableStreamTag.value tag ->
     loader_for blob file bytes tag = Some (callee, loader) ->
     deterministic loader) ->
  exists v,
    fst (dispatch debug g callFrame st) = Returned v /\
    fst (dispatch debug g callFrame (snd (dispatch debug g callFrame st))) = Returned v /\
    (forall st', fst (dispatch debug g callFrame st') = Returned v) /\
    (forall st1 st2,
       world st1 = world st2 ->
       world (snd (dispatch debug g callFrame st1))
       = world (snd (dispatch debug g callFrame st2))).
Proof.
  intros Htoken Hvalid Hentry Hloaders.
  pose proof (carries_token_passes debug _ _ Htoken) as Hcheck.
  destruct Htoken as [_ Hid].
  destruct Hvalid as [[Hneg Hrange] | Htag].
  - destruct (element_at_inside js2nativePointers (- t - 1) Hrange) as [fn Hfn].
    assert (Hdet : deterministic fn).
    { apply Hentry; [exact Hneg |]. now rewrite <- element_at_nth_error by lia. }
    assert (Hrun : forall st0, dispatch debug g callFrame st0 =
      (Returned (encode (fst (fn g (world st0)))),
       after_call st0 [EvTableRead (- t - 1); EvInvoke (TableEntry (- t - 1)) g] fn g)).
    { intros st0. rewrite dispatch_negative by (trivial; lia). now rewrite Hid, Hfn. }
    exists (encode (fst (fn g (world st)))).
    split; [now rewrite Hrun |].
    split; [rewrite (Hrun (snd _)); simpl; now rewrite (Hdet g _ (world st)) |].
    split; [intros st'; rewrite Hrun; simpl; now rewrite (Hdet g _ (world st)) |].
    intros st1 st2 Hw. rewrite !Hrun. simpl. now rewrite Hw.
  - assert (Hloader : exists callee loader,
      deterministic loader /\
      forall st0, dispatch debug g callFrame st0 =
        (Returned (fst (loader g (world st0))), after_call st0 [EvInvoke callee g] loader g)).
    { destruct Htag as [Ht | [Ht | Ht]].
      - exists ByteBlobLoad, blob.
        split; [now apply (Hloaders ReadableStreamTag.Blob ByteBlobLoad) |]. intros st0.
        apply dispatch_tag with (tag := ReadableStreamTag.Blob); trivial. now rewrite Hid.
      - exists FileReaderLoad, file.
        split; [now apply (Hloaders ReadableStreamTag.File FileReaderLoad) |]. intros st0.
        apply dispatch_tag with (tag := ReadableStreamTag.File); trivial. now rewrite Hid.
      - exists ByteStreamLoad, bytes.
        split; [now apply (Hloaders ReadableStreamTag.Bytes ByteStreamLoad) |]. intros st0.
        apply dispatch_tag with (tag := ReadableStreamTag.Bytes); trivial. now rewrite Hid. }
    destruct Hloader as (callee & loader & Hdet & Hrun).
    exists (fst (loader g (world st))).
    split; [now rewrite Hrun |].
    split; [rewrite (Hrun (snd _)); simpl; now rewrite (Hdet g _ (world st)) |].
    split; [intros st'; rewrite Hrun; simpl; now rewrite (Hdet g _ (world st)) |].
    intros st1 st2 Hw. rewrite !Hrun. simpl. now rewrite Hw.
Qed.

(** C9. The tags the dispatcher has a case for are exactly the integers 1
    ([Blob]), 2 ([File]) and 4 ([Bytes]): a non-negative token returns a
    value if and only if it is one of them, each through its own loader.
    The tokens 0 ([JavaScript]), 3 ([Direct]) and every token from 5 on end
    in the crash. *)
Theorem C9_dispatched_tags_are_1_2_4 debug g callFrame t st :
  carries_token callFrame t ->
  0 <= t ->
  (ReadableStreamTag.value ReadableStreamTag.Blob = 1 /\
   ReadableStreamTag.value ReadableStreamTag.File = 2 /\
   ReadableStreamTag.value ReadableStreamTag.Bytes = 4 /\
   ReadableStreamTag.value ReadableStreamTag.JavaScript = 0 /\
   ReadableStreamTag.value ReadableStreamTag.Direct = 3) /\
  (dispatched_tag t <-> t = 1 \/ t = 2 \/ t = 4) /\
  ((exists v st', dispatch debug g callFrame st = (Returned v, st')) <->
   t = 1 \/ t = 2 \/ t = 4) /\
  (t = 1 ->
   dispatch debug g callFrame st
   = (Returned (fst (blob g (world st))), after_call st [EvInvoke ByteBlobLoad g] blob g)) /\
  (t = 2 ->
   dispatch debug g callFrame st
   = (Returned (fst (file g (world st))), after_call st [EvInvoke FileReaderLoad g] file g)) /\
  (t = 4 ->
   dispatch debug g callFrame st
   = (Returned (fst (bytes g (world st))), after_call st [EvInvoke ByteStreamLoad g] bytes g)) /\
  (t = 0 \/ t = 3 \/ 5 <= t ->
   dispatch debug g callFrame st = (Crashed (crash_info debug), st)).
Proof.
  intros Htoken Hpos.
  pose proof (carries_token_passes debug _ _ Htoken) as Hcheck.
  destruct Htoken as [_ Hid].
  assert (Hrun := dispatch_nonnegative debug g callFrame st Hcheck).
  cbv zeta in Hrun. rewrite Hid in Hrun. specialize (Hrun Hpos).
  split; [now repeat split |].
  split; [unfold dispatched_tag; simpl; tauto |].
  split; [| repeat split].
  - rewrite Hrun.
    destruct (Z.eqb_spec t 1); [split; [tauto | eauto] |].
    destruct (Z.eqb_spec t 2); [split; [tauto | eauto] |].
    destruct (Z.eqb_spec t 4); [split; [tauto | eauto] |].
    split; [intros (v & st' & Habs); discriminate Habs | lia].
  - intros ->. exact Hrun.
  - intros ->. exact Hrun.
  - intros ->. exact Hrun.
  - intros Hother. rewrite Hrun.
    destruct (Z.eqb_spec t 1); [lia |].
    destruct (Z.eqb_spec t 2); [lia |].
    destruct (Z.eqb_spec t 4); [lia |].
    reflexivity.
Qed.

(** C10. The outcome of a call depends on the first argument slot and the
    global object only: two calls whose frames agree on the first slot end
    the same way and leave the same state, whatever further arguments and
    whatever argument counts the frames have.  The count is never looked at:
    the call behaves the same on the frame with its count set to zero. *)
Theorem C10_only_first_argument_is_read debug g callFrame callFrame' st :
  uncheckedArgument callFrame 0 = uncheckedArgument callFrame' 0 ->
  dispatch debug g callFrame st = dispatch debug g callFrame' st /\
  dispatch debug g {| argumentCount := 0; argumentSlot := argumentSlot callFrame |} st
  = dispatch debug g callFrame st.
Proof.
  intros Hsame. split.
  - unfold jsDollarLazy. now rewrite Hsame.
  - reflexivity.
Qed.

(** ** The dispatcher on every call

    The lemmas above follow one path each; the next one gives the run of a
    call whatever the build and the argument are. *)

Lemma element_at_some_inside {A : Type} (a : list A) index x :
  element_at a index = Some x -> 0 <= index < Z.of_nat (List.length a).
Proof.
  intros Hsome.
  destruct (Z.lt_ge_cases index 0) as [Hneg | Hpos];
    [rewrite element_at_outside in Hsome by (left; exact Hneg); discriminate |].
  destruct (Z.lt_ge_cases index (Z.of_nat (List.length a))) as [Hin | Hout];
    [lia |].
  rewrite element_at_outside in Hsome by (right; exact Hout). discriminate.
Qed.

Lemma element_at_none_outside {A : Type} (a : list A) index :
  element_at a index = None -> index < 0 \/ Z.of_nat (List.length a) <= index.
Proof.
  intros Hnone.
  destruct (Z.lt_ge_cases index 0) as [Hneg | Hpos]; [now left |].
  destruct (Z.lt_ge_cases index (Z.of_nat (List.length a))) as [Hin | Hout];
    [| now right].
  destruct (element_at_inside a index (conj Hpos Hin)) as [x Hx]. congruence.
Qed.

Lemma element_at_app {A : Type} (a more : list A) :
  forall index, index < Z.of_nat (List.length a) ->
    element_at (a ++ more) index = element_at a index.
Proof.
  induction a as [| x rest IH]; intros index Hindex.
  - simpl in *. apply element_at_outside. left. exact Hindex.
  - simpl List.length in Hindex. simpl.
    destruct (Z.eqb_spec index 0); [reflexivity |].
    apply IH. lia.
Qed.

Lemma dispatch_run debug g callFrame st :
  let target := uncheckedArgument callFrame 0 in
  let id := asInt32 target in
  dispatch debug g callFrame st =
    if debug && negb (isInt32 target) then
      (AssertionFailed
         ("In call to $lazy: expected Int32, got " ++ toWTFString target g)%string, st)
    else if id <? 0 then
      match element_at js2nativePointers (- id - 1) with
      | Some fn =>
          (Returned (encode (fst (fn g (world st)))),
           after_call st [EvTableRead (- id - 1); EvInvoke (TableEntry (- id - 1)) g] fn g)
      | None => (UndefinedBehaviour (- id - 1), log (EvTableRead (- id - 1)) st)
      end
    else if id =? 1 then
      (Returned (fst (blob g (world st))), after_call st [EvInvoke ByteBlobLoad g] blob g)
    else if id =? 2 then
      (Returned (fst (file g (world st))), after_call st [EvInvoke FileReaderLoad g] file g)
    else if id =? 4 then
      (Returned (fst (bytes g (world st))), after_call st [EvInvoke ByteStreamLoad g] bytes g)
    else (Crashed (crash_info debug), st).
Proof.
  intros target id.
  destruct (debug && negb (isInt32 target)) eqn:Hfail.
  - apply andb_true_iff in Hfail. destruct Hfail as [-> Hnot].
    apply negb_true_iff in Hnot. fold target in Hnot.
    unfold jsDollarLazy, bind, ASSERT_WITH_MESSAGE. fold target.
    now rewrite Hnot, format_expected_int32.
  - assert (Hcheck : passes_type_check debug callFrame).
    { unfold passes_type_check. fold target.
      destruct debug; [right | now left].
      simpl in Hfail. now apply negb_false_iff in Hfail. }
    destruct (Z.ltb_spec id 0) as [Hneg | Hpos].
    + now apply dispatch_negative.
    + now apply dispatch_nonnegative.
Qed.

(** The four ways a call can end, each with the condition it ends under. *)
Lemma dispatch_shape debug g callFrame st :
  let target := uncheckedArgument callFrame 0 in
  let id := asInt32 target in
  let run := dispatch debug g callFrame st in
  (debug = true /\ isInt32 target = false /\
   run = (AssertionFailed
            ("In call to $lazy: expected Int32, got " ++ toWTFString target g)%string,
          st)) \/
  (passes_type_check debug callFrame /\
   (table_token tableLength id \/ dispatched_tag id) /\
   exists v w trail,
     run = (Returned v, {| world := w; events := events st ++ trail |}) /\
     invocations trail = 1%nat /\
     (List.length (table_reads trail) <= 1)%nat) \/
  (passes_type_check debug callFrame /\
   id < 0 /\ Z.of_nat tableLength <= - id - 1 /\
   run = (UndefinedBehaviour (- id - 1), log (EvTableRead (- id - 1)) st)) \/
  (passes_type_check debug callFrame /\
   0 <= id /\ ~ dispatched_tag id /\
   run = (Crashed (crash_info debug), st)).
Proof.
  intros target id run. subst run.
  pose proof (dispatch_run debug g callFrame st) as Hrun. cbv zeta in Hrun.
  fold target in Hrun. fold id in Hrun. rewrite Hrun. clear Hrun.
  destruct (debug && negb (isInt32 target)) eqn:Hfail.
  { left. apply andb_true_iff in Hfail. destruct Hfail as [-> Hnot].
    apply negb_true_iff in Hnot. now repeat split. }
  right.
  assert (Hcheck : passes_type_check debug callFrame).
  { unfold passes_type_check. fold target.
    destruct debug; [right | now left].
    simpl in Hfail. now apply negb_false_iff in Hfail. }
  unfold dispatched_tag, table_token. cbn [ReadableStreamTag.value].
  destruct (Z.ltb_spec id 0) as [Hneg | Hpos].
  - destruct (element_at js2nativePointers (- id - 1)) as [fn |] eqn:Hfn.
    + left. apply element_at_some_inside in Hfn.
      split; [exact Hcheck |]. split; [left; lia |].
      (unfold after_call; eexists _, _, _; split; [reflexivity | split; [reflexivity | simpl; lia]]).
    + right. left. apply element_at_none_outside in Hfn.
      split; [exact Hcheck |]. repeat split; trivial. lia.
  - destruct (Z.eqb_spec id 1);
      [left; split; [exact Hcheck |]; split; [tauto | (unfold after_call; eexists _, _, _; split; [reflexivity | split; [reflexivity | simpl; lia]])] |].
    destruct (Z.eqb_spec id 2);
      [left; split; [exact Hcheck |]; split; [tauto | (unfold after_call; eexists _, _, _; split; [reflexivity | split; [reflexivity | simpl; lia]])] |].
    destruct (Z.eqb_spec id 4);
      [left; split; [exact Hcheck |]; split; [tauto | (unfold after_call; eexists _, _, _; split; [reflexivity | split; [reflexivity | simpl; lia]])] |].
    right. right. split; [exact Hcheck |]. repeat split; trivial. lia.
Qed.

Ltac shape_cases debug g callFrame st :=
  let Hshape := fresh "Hshape" in
  pose proof (dispatch_shape debug g callFrame st) as Hshape;
  cbv zeta in Hshape;
  destruct Hshape as
    [(Hdebug & Hnot & Hrun)
    | [(Hcheck & Hvalid & v0 & w0 & trail0 & Hrun & Hinv & Hreads)
      | [(Hcheck & Hneg & Hout & Hrun)
        | (Hcheck & Hpos & Hnotag & Hrun)]]].

Ltac conditions :=
  unfold passes_type_check, table_token, dispatched_tag in *;
  cbn [ReadableStreamTag.value] in *.

(** C7. Whenever the dispatcher halts on an unresolvable token, that is
    whenever a run ends in the crash, the token is neither a table token nor
    a dispatched tag and the halt carries the diagnostic of the build, whose
    text tells the two causes apart: it names an internal one (a mistake in
    the code generator, a bug in Bun) and an external one (calling this
    directly, a handle to the internal code).  There is no way back from the
    halt: the state is the one the call started in, no value is returned and
    whatever the caller would run next never runs. *)
Theorem C7_halt_carries_diagnostic_of_both_causes debug g callFrame st info :
  let id := asInt32 (uncheckedArgument callFrame 0) in
  fst (dispatch debug g callFrame st) = Crashed info ->
  (~ table_token tableLength id /\ ~ dispatched_tag id) /\
  info = crash_info debug /\
  (String.index 0 "mistake in the code generator" info <> None \/
   String.index 0 "bug in Bun" info <> None) /\
  (String.index 0 "calling this directly" info <> None \/
   String.index 0 "handle to our internal code" info <> None) /\
  dispatch debug g callFrame st = (Crashed info, st) /\
  (forall v, fst (dispatch debug g callFrame st) <> Returned v) /\
  (forall (B : Type) (k : EncodedJSValue -> M JSGlobalObject World B),
     bind (dispatch debug g callFrame) k st = (Crashed info, st)).
Proof.
  intros id Hhalt. subst id.
  shape_cases debug g callFrame st; rewrite Hrun in Hhalt; simpl in Hhalt;
    try discriminate Hhalt.
  injection Hhalt as <-.
  split; [conditions; split; [lia | exact Hnotag] |].
  split; [reflexivity |].
  split; [destruct debug; [left | right]; vm_compute; discriminate |].
  split; [destruct debug; [left | right]; vm_compute; discriminate |].
  split; [exact Hrun |].
  split; [intros v; now rewrite Hrun |].
  intros B k. unfold bind at 1. now rewrite Hrun.
Qed.

(** X1. Whatever the build and the argument, a call invokes at most one
    native function and reads the pointer table at most once; it returns a
    value exactly when it invoked one function, and when it does not return
    the world is the one it started in. *)
Theorem X1_at_most_one_native_call debug g callFrame st :
  let run := dispatch debug g callFrame st in
  exists trail,
    events (snd run) = events st ++ trail /\
    (invocations trail <= 1)%nat /\
    (List.length (table_reads trail) <= 1)%nat /\
    ((exists v, fst run = Returned v) <-> invocations trail = 1%nat) /\
    ((forall v, fst run <> Returned v) -> world (snd run) = world st).
Proof.
  intros run. subst run.
  shape_cases debug g callFrame st; rewrite Hrun; simpl.
  - exists []. rewrite app_nil_r. unfold invocations, table_reads. simpl.
    repeat split; try lia; try discriminate; try (intros _; reflexivity);
      now intros [v Hv].
  - exists trail0. repeat split; try lia; eauto.
    intros Hnever. now destruct (Hnever v0).
  - exists [EvTableRead (- asInt32 (uncheckedArgument callFrame 0) - 1)].
    unfold invocations, table_reads. simpl.
    repeat split; try lia; try discriminate; try (intros _; reflexivity);
      now intros [v Hv].
  - exists []. rewrite app_nil_r. unfold invocations, table_reads. simpl.
    repeat split; try lia; try discriminate; try (intros _; reflexivity);
      now intros [v Hv].
Qed.

(** X2. A call ends in the crash exactly when the type check lets it
    through and the integer read from the argument is non-negative and not
    one of the tags 1, 2, 4; the diagnostic is then the one of the build, and
    the state is left as it was. *)
Theorem X2_crash_exactly_when debug g callFrame st :
  let id := asInt32 (uncheckedArgument callFrame 0) in
  let run := dispatch debug g callFrame st in
  (forall info,
     fst run = Crashed info <->
     passes_type_check debug callFrame /\ 0 <= id /\ ~ dispatched_tag id /\
     info = crash_info debug) /\
  (forall info, fst run = Crashed info -> snd run = st).
Proof.
  intros id run. subst run id.
  shape_cases debug g callFrame st; rewrite Hrun; simpl;
    (split; [intros info; split; [intros Hinfo | intros (Hc & Hp & Hn & ->)]
            | intros info Hinfo]);
    try discriminate Hinfo; try reflexivity;
    try (injection Hinfo as <-; now repeat split);
    exfalso; conditions; intuition (try congruence; try lia).
Qed.

(** X3. A call ends in an assertion failure exactly in a debug build on an
    argument that is not integer-typed; the message is then the fixed prefix
    followed by the text of the argument.  A release build never asserts. *)
Theorem X3_assertion_exactly_when debug g callFrame st :
  let target := uncheckedArgument callFrame 0 in
  let run := dispatch debug g callFrame st in
  (forall message,
     fst run = AssertionFailed message <->
     debug = true /\ isInt32 target = false /\
     message = ("In call to $lazy: expected Int32, got " ++ toWTFString target g)%string) /\
  (forall message, fst run = AssertionFailed message -> snd run = st).
Proof.
  intros target run. subst run target.
  shape_cases debug g callFrame st; rewrite Hrun; simpl;
    (split; [intros message; split; [intros Hmsg | intros (Hd & Hi & ->)]
            | intros message Hmsg]);
    try discriminate Hmsg; try reflexivity;
    try (injection Hmsg as <-; now repeat split);
    exfalso; conditions; intuition (try congruence; try lia).
Qed.

(** X4. For a call that stays inside the pointer table (the integer read
    from the argument is non-negative, or negative with [-id-1] below the
    length of the table), a value is returned exactly when the type check
    lets the call through and the integer is a table token or one of the
    tags 1, 2, 4. *)
Theorem X4_returns_exactly_when debug g callFrame st :
  let id := asInt32 (uncheckedArgument callFrame 0) in
  let run := dispatch debug g callFrame st in
  (id < 0 -> - id - 1 < Z.of_nat tableLength) ->
  ((exists v, fst run = Returned v) <->
   passes_type_check debug callFrame /\
   (table_token tableLength id \/ dispatched_tag id)).
Proof.
  intros id run Hinside. subst run id.
  shape_cases debug g callFrame st; rewrite Hrun; simpl;
    (split; [intros [v Hv] | intros [Hc Hv]]);
    try discriminate Hv; eauto;
    exfalso; conditions; intuition (try congruence; try lia).
Qed.

(** X5. A call reads outside the pointer table exactly when the type check
    lets it through, the integer read from the argument is negative and
    [-id-1] is at or past the end of the table.  The position read is never
    negative and never above the greatest [int]: a table of 2^31 entries or
    more is never overrun, and the entries past the first 2^31 are out of
    reach. *)
Theorem X5_overrun_exactly_when debug g callFrame st :
  let id := asInt32 (uncheckedArgument callFrame 0) in
  let run := dispatch debug g callFrame st in
  (forall index,
     fst run = UndefinedBehaviour index <->
     passes_type_check debug callFrame /\ id < 0 /\ index = - id - 1 /\
     Z.of_nat tableLength <= index) /\
  (forall index,
     fst run = UndefinedBehaviour index ->
     Z.of_nat tableLength <= index <= INT32_MAX /\
     snd run = log (EvTableRead index) st) /\
  (forall index,
     In index (table_reads (skipn (List.length (events st)) (events (snd run)))) ->
     0 <= index <= INT32_MAX).
Proof.
  intros id run. subst run id.
  pose proof (asInt32_range (uncheckedArgument callFrame 0)) as Hrange.
  unfold INT32_MIN, INT32_MAX in *.
  assert (Hskip : forall trail : list (Event JSGlobalObject),
            skipn (List.length (events st)) (events st ++ trail) = trail).
  { intros trail. rewrite skipn_app, skipn_all, Nat.sub_diag. reflexivity. }
  assert (Hskip0 : skipn (List.length (events st)) (events st) = []) by apply skipn_all.
  split; [| split].
  - shape_cases debug g callFrame st; rewrite Hrun; simpl;
      (intros index; split; [intros Hindex | intros (Hc & Hn & -> & Ho)]);
      try discriminate Hindex; try reflexivity;
      try (injection Hindex as <-; now repeat split);
      exfalso; conditions; intuition (try congruence; try lia).
  - shape_cases debug g callFrame st; rewrite Hrun; simpl;
      intros index Hindex; try discriminate Hindex.
    injection Hindex as <-. repeat split; lia.
  - pose proof (dispatch_run debug g callFrame st) as Hrun. cbv zeta in Hrun.
    rewrite Hrun. clear Hrun.
    destruct (debug && negb _); [simpl; rewrite Hskip0; now intros index [] |].
    destruct (Z.ltb_spec (asInt32 (uncheckedArgument callFrame 0)) 0) as [Hneg | Hpos].
    + destruct (element_at _ _); unfold after_call, log; simpl; rewrite Hskip; simpl;
        intros index [<- | []]; lia.
    + repeat (destruct (_ =? _);
              [unfold after_call; simpl; rewrite Hskip; now intros index [] |]).
      simpl. rewrite Hskip0. now intros index [].
Qed.

(** X6. On an integer-typed argument the two builds differ in the text of
    the crash only: for a table token (a negative integer with [-id-1]
    inside the table) or one of the tags 1, 2, 4 the debug build and the
    release build run the same, and for any other non-negative integer both
    crash, each with its own diagnostic. *)
Theorem X6_builds_agree_on_integer_arguments g callFrame st :
  let id := asInt32 (uncheckedArgument callFrame 0) in
  isInt32 (uncheckedArgument callFrame 0) = true ->
  (table_token tableLength id \/ dispatched_tag id ->
   dispatch true g callFrame st = dispatch false g callFrame st) /\
  (0 <= id /\ ~ dispatched_tag id ->
   dispatch true g callFrame st = (Crashed (crash_info true), st) /\
   dispatch false g callFrame st = (Crashed (crash_info false), st)) /\
  crash_info true <> crash_info false.
Proof.
  intros id Hint.
  assert (Hdebug : passes_type_check true callFrame) by now right.
  assert (Hrelease : passes_type_check false callFrame) by now left.
  split; [| split].
  - intros [[Hneg Hrange] | Htag].
    + destruct (element_at_inside js2nativePointers (- id - 1) Hrange) as [fn Hfn].
      rewrite !dispatch_negative by trivial. fold id. now rewrite Hfn.
    + assert (Hpos : 0 <= id) by (conditions; lia).
      rewrite !dispatch_nonnegative by trivial. fold id.
      conditions.
      destruct (Z.eqb_spec id 1); [reflexivity |].
      destruct (Z.eqb_spec id 2); [reflexivity |].
      destruct (Z.eqb_spec id 4); [reflexivity | lia].
  - intros [Hpos Hnot]. split; now apply dispatch_crash.
  - discriminate.
Qed.

(** X7. Appending entries to the pointer table changes no call that stays
    inside the old table: when the integer read from the argument is
    non-negative, or negative with [-id-1] inside the old table, the call
    runs on the longer table exactly as on the old one. *)
Theorem X7_appending_entries_keeps_tokens debug g callFrame st more :
  let id := asInt32 (uncheckedArgument callFrame 0) in
  (id < 0 -> - id - 1 < Z.of_nat tableLength) ->
  dispatch_on (js2nativePointers ++ more) debug g callFrame st
  = dispatch debug g callFrame st.
Proof.
  intros id Hinside.
  assert (Hrange : INT32_MIN <= id <= INT32_MAX)
    by apply (asInt32_range (uncheckedArgument callFrame 0)).
  unfold jsDollarLazy, bind, ASSERT_WITH_MESSAGE, ret. fold id.
  destruct debug; [destruct (isInt32 _); [| reflexivity] |];
    (destruct (Z.ltb_spec id 0) as [Hneg | Hpos]; [| reflexivity];
     rewrite table_index by lia;
     unfold array_read; now rewrite element_at_app by auto).
Qed.

(** X8. The position [-id-1] the dispatcher computes for a negative [int]
    lies between 0 and the greatest [int], two different negative tokens
    never give the same position, and the same expression applied to the
    position gives the token back. *)
Theorem X8_tokens_and_positions_one_to_one id :
  INT32_MIN <= id < 0 ->
  0 <= sub32 (neg32 id) 1 <= INT32_MAX /\
  (forall id', INT32_MIN <= id' < 0 ->
     sub32 (neg32 id') 1 = sub32 (neg32 id) 1 -> id' = id) /\
  sub32 (neg32 (sub32 (neg32 id) 1)) 1 = id.
Proof.
  intros Hid. rewrite (table_index id Hid).
  unfold INT32_MIN, INT32_MAX in *.
  split; [lia |]. split.
  - intros id' Hid' Hsame. rewrite (table_index id') in Hsame by exact Hid'. lia.
  - unfold sub32, neg32.
    rewrite (wrap32_small (- (- id - 1))) by (unfold INT32_MIN, INT32_MAX; lia).
    rewrite wrap32_small by (unfold INT32_MIN, INT32_MAX; lia). lia.
Qed.

(** X9. A call that stays inside the pointer table looks at one position
    of it: two tables that both hold the same entry at position [-id-1] (or
    any two tables, when the integer read from the argument is not negative)
    give the same run. *)
Theorem X9_only_one_table_position_matters debug g callFrame st
    (table table' : list (NativeFn JSGlobalObject World JSValue)) :
  let id := asInt32 (uncheckedArgument callFrame 0) in
  (id < 0 ->
   exists fn,
     element_at table (- id - 1) = Some fn /\
     element_at table' (- id - 1) = Some fn) ->
  dispatch_on table debug g callFrame st = dispatch_on table' debug g callFrame st.
Proof.
  intros id Hsame.
  assert (Hrange : INT32_MIN <= id <= INT32_MAX)
    by apply (asInt32_range (uncheckedArgument callFrame 0)).
  unfold jsDollarLazy, bind, ASSERT_WITH_MESSAGE, ret. fold id.
  destruct debug; [destruct (isInt32 _); [| reflexivity] |];
    (destruct (Z.ltb_spec id 0) as [Hneg | Hpos]; [| reflexivity];
     destruct (Hsame Hneg) as (fn & Hfn & Hfn');
     rewrite table_index by lia;
     unfold array_read; now rewrite Hfn, Hfn').
Qed.

End Properties.

(** * The properties at work on the sample runtime *)

(** Token [-1] on the sample table: entry [0] is called and its result
    returned. *)
Lemma C1_witness :
  carries_token (Sample.call (Sample.Int32 (-1))) (-1) /\
  Sample.lazy true (Sample.call (Sample.Int32 (-1))) Sample.start
  = (Returned (Sample.Int32 100),
     {| world := 1%nat; events := [EvTableRead 0; EvInvoke (TableEntry 0) 7%nat] |}).
Proof.
  assert (Htoken : carries_token (Sample.call (Sample.Int32 (-1))) (-1))
    by (split; reflexivity).
  split; [exact Htoken |].
  destruct (@C1_negative_token_invokes_table_entry Sample.values nat nat
              Sample.describe Sample.table Sample.blob Sample.file Sample.bytes
              true 7%nat (Sample.call (Sample.Int32 (-1))) (-1) Sample.start
              Htoken ltac:(lia) ltac:(simpl; lia))
    as (fn & r & _ & Hr & Hrun & _ & Hzero).
  specialize (Hzero eq_refl). simpl in Hzero. injection Hzero as <-.
  unfold Sample.lazy. rewrite Hrun, Hr. reflexivity.
Defined.

(** The [File] tag on the sample runtime: the file loader is called. *)
Lemma C2_witness :
  carries_token (Sample.call (Sample.Int32 2))
    (ReadableStreamTag.value ReadableStreamTag.File) /\
  Sample.lazy false (Sample.call (Sample.Int32 2)) Sample.start
  = (Returned (Sample.Int32 22),
     {| world := 1%nat; events := [EvInvoke FileReaderLoad 7%nat] |}).
Proof.
  assert (Htoken : carries_token (Sample.call (Sample.Int32 2))
                     (ReadableStreamTag.value ReadableStreamTag.File))
    by (split; reflexivity).
  split; [exact Htoken |].
  destruct (@C2_reserved_tag_invokes_loader Sample.values nat nat
              Sample.describe Sample.table Sample.blob Sample.file Sample.bytes
              false 7%nat (Sample.call (Sample.Int32 2)) ReadableStreamTag.File
              FileReaderLoad Sample.file Sample.start Htoken eq_refl)
    as (Hrun & _ & _).
  unfold Sample.lazy. rewrite Hrun. reflexivity.
Defined.

(** Token [3], the [Direct] placeholder, crashes a release build. *)
Lemma C3_witness :
  carries_token (Sample.call (Sample.Int32 3)) 3 /\
  ~ dispatched_tag 3 /\
  Sample.lazy false (Sample.call (Sample.Int32 3)) Sample.start
  = (Crashed (crash_info false), Sample.start).
Proof.
  assert (Htoken : carries_token (Sample.call (Sample.Int32 3)) 3)
    by (split; reflexivity).
  assert (Hnot : ~ dispatched_tag 3)
    by (unfold dispatched_tag; simpl; lia).
  split; [exact Htoken |]. split; [exact Hnot |].
  exact (proj1 (@C3_other_nonnegative_token_halts Sample.values nat nat
                  Sample.describe Sample.table Sample.blob Sample.file Sample.bytes
                  false 7%nat (Sample.call (Sample.Int32 3)) 3 Sample.start
                  Htoken ltac:(lia) Hnot)).
Defined.

(** C4 as stated fails: with the [Invalid] sentinel as the token the sample
    runtime does not crash; entry [0] of the table is called and its result
    returned. *)
Lemma C4_counterexample :
  let callFrame :=
    Sample.call (Sample.Int32 (ReadableStreamTag.value ReadableStreamTag.Invalid)) in
  let run := Sample.lazy true callFrame Sample.start in
  carries_token callFrame (ReadableStreamTag.value ReadableStreamTag.Invalid) /\
  run = (Returned (Sample.Int32 100),
         {| world := 1%nat; events := [EvTableRead 0; EvInvoke (TableEntry 0) 7%nat] |}) /\
  ~ ((exists info, fst run = Crashed info) /\
     (forall callee global, ~ In (EvInvoke callee global) (events (snd run)))).
Proof.
  cbv zeta. split; [split; reflexivity |]. split; [reflexivity |].
  intros [[info Hcrash] _]. discriminate Hcrash.
Qed.

Lemma C4_witness :
  carries_token (Sample.call (Sample.Int32 (-1)))
    (ReadableStreamTag.value ReadableStreamTag.Invalid) /\
  forall info,
    fst (Sample.lazy false (Sample.call (Sample.Int32 (-1))) Sample.start)
    <> Crashed info.
Proof.
  assert (Htoken : carries_token (Sample.call (Sample.Int32 (-1)))
                     (ReadableStreamTag.value ReadableStreamTag.Invalid))
    by (split; reflexivity).
  split; [exact Htoken |].
  exact (proj2 (proj2 (@C4_invalid_sentinel_indexes_table Sample.values nat nat
                  Sample.describe Sample.table Sample.blob Sample.file Sample.bytes
                  false 7%nat (Sample.call (Sample.Int32 (-1))) Sample.start
                  Htoken))).
Defined.

(** Token [-3] on the two-entry sample table: index [2] is read although it
    is outside the table. *)
Lemma C5_witness :
  carries_token (Sample.call (Sample.Int32 (-3))) (-3) /\
  Sample.lazy true (Sample.call (Sample.Int32 (-3))) Sample.start
  = (UndefinedBehaviour 2, {| world := 0%nat; events := [EvTableRead 2] |}).
Proof.
  assert (Htoken : carries_token (Sample.call (Sample.Int32 (-3))) (-3))
    by (split; reflexivity).
  split; [exact Htoken |].
  destruct (@C5_negative_token_unchecked_table_access Sample.values nat nat
              Sample.describe Sample.table Sample.blob Sample.file Sample.bytes
              true 7%nat (Sample.call (Sample.Int32 (-3))) (-3) Sample.start
              Htoken ltac:(lia))
    as (_ & _ & _ & Hout).
  unfold Sample.lazy. rewrite Hout by (simpl; lia). reflexivity.
Defined.

(** An object passed to a debug build: the assertion fires with its text. *)
Lemma C6_witness :
  isInt32 (uncheckedArgument (Sample.call (Sample.Cell 2)) 0) = false /\
  Sample.lazy true (Sample.call (Sample.Cell 2)) Sample.start
  = (AssertionFailed "In call to $lazy: expected Int32, got [object Object]",
     Sample.start).
Proof.
  split; [reflexivity |].
  exact (proj1 (@C6_type_check_only_in_debug_builds Sample.values nat nat
                  Sample.describe Sample.table Sample.blob Sample.file Sample.bytes
                  7%nat (Sample.call (Sample.Cell 2)) Sample.start eq_refl)).
Defined.

(** Token [0], the [JavaScript] placeholder, halts a debug build. *)
Lemma C7_witness :
  fst (Sample.lazy true (Sample.call (Sample.Int32 0)) Sample.start)
  = Crashed (crash_info true) /\
  String.index 0 "mistake in the code generator" (crash_info true) <> None /\
  String.index 0 "calling this directly" (crash_info true) <> None /\
  Sample.lazy true (Sample.call (Sample.Int32 0)) Sample.start
  = (Crashed (crash_info true), Sample.start).
Proof.
  assert (Hhalt : fst (Sample.lazy true (Sample.call (Sample.Int32 0)) Sample.start)
                  = Crashed (crash_info true)) by reflexivity.
  split; [exact Hhalt |].
  destruct (@C7_halt_carries_diagnostic_of_both_causes Sample.values nat nat
              Sample.describe Sample.table Sample.blob Sample.file Sample.bytes
              true 7%nat (Sample.call (Sample.Int32 0)) Sample.start
              (crash_info true) Hhalt)
    as (_ & _ & Hinternal & Hexternal & Hrun & _).
  split; [| split; [| exact Hrun]].
  - destruct Hinternal as [Hgen | Hbun]; [exact Hgen |].
    exfalso. apply Hbun. reflexivity.
  - destruct Hexternal as [Hdirect | Hhandle]; [exact Hdirect |].
    exfalso. apply Hhandle. reflexivity.
Defined.

(** Token [-1] on the sample table, dispatched twice in a row: entry [0]
    is deterministic, whatever entry [1] does. *)
Lemma C8_witness :
  carries_token (Sample.call (Sample.Int32 (-1))) (-1) /\
  table_token (List.length Sample.table) (-1) /\
  ~ Forall deterministic Sample.table /\
  exists v,
    fst (Sample.lazy false (Sample.call (Sample.Int32 (-1))) Sample.start)
    = Returned v /\
    fst (Sample.lazy false (Sample.call (Sample.Int32 (-1)))
           (snd (Sample.lazy false (Sample.call (Sample.Int32 (-1))) Sample.start)))
    = Returned v.
Proof.
  assert (Htoken : carries_token (Sample.call (Sample.Int32 (-1))) (-1))
    by (split; reflexivity).
  assert (Hvalid : table_token (List.length Sample.table) (-1))
    by (unfold table_token; simpl; lia).
  assert (Hentry : forall fn : NativeFn nat nat Sample.value,
            -1 < 0 -> nth_error Sample.table (Z.to_nat (- (-1) - 1)) = Some fn ->
            deterministic fn).
  { intros fn _ Hfn. simpl in Hfn. injection Hfn as <-.
    intros g w1 w2. reflexivity. }
  assert (Hloaders : forall tag callee (loader : NativeFn nat nat Sample.value),
            -1 = ReadableStreamTag.value tag ->
            loader_for Sample.blob Sample.file Sample.bytes tag = Some (callee, loader) ->
            deterministic loader).
  { intros tag callee loader Htag Hloader.
    destruct tag; simpl in Htag, Hloader; discriminate. }
  split; [exact Htoken |]. split; [exact Hvalid |].
  split.
  { intros Hall. inversion Hall as [| fn0 rest _ Hrest]; subst.
    inversion Hrest as [| fn1 rest' Hcounting _]; subst.
    specialize (Hcounting 7%nat 0%nat 1%nat). discriminate Hcounting. }
  destruct (@C8_repeated_dispatch_same_result Sample.values nat nat
              Sample.describe Sample.table Sample.blob Sample.file Sample.bytes
              false 7%nat (Sample.call (Sample.Int32 (-1))) (-1) Sample.start
              Htoken (or_introl Hvalid) Hentry Hloaders)
    as (v & Hfirst & Hsecond & _).
  exists v. split; [exact Hfirst | exact Hsecond].
Defined.

(** Token [4], the [Bytes] tag: the byte-stream loader is called. *)
Lemma C9_witness :
  carries_token (Sample.call (Sample.Int32 4)) 4 /\
  Sample.lazy true (Sample.call (Sample.Int32 4)) Sample.start
  = (Returned (Sample.Int32 44),
     {| world := 1%nat; events := [EvInvoke ByteStreamLoad 7%nat] |}).
Proof.
  assert (Htoken : carries_token (Sample.call (Sample.Int32 4)) 4)
    by (split; reflexivity).
  split; [exact Htoken |].
  destruct (@C9_dispatched_tags_are_1_2_4 Sample.values nat nat
              Sample.describe Sample.table Sample.blob Sample.file Sample.bytes
              true 7%nat (Sample.call (Sample.Int32 4)) 4 Sample.start
              Htoken ltac:(lia))
    as (_ & _ & _ & _ & _ & Hbytes & _).
  unfold Sample.lazy. rewrite (Hbytes eq_refl). reflexivity.
Defined.

(** One argument or three, the call with first argument [1] ends the same. *)
Lemma C10_witness :
  uncheckedArgument (Sample.call (Sample.Int32 1)) 0
  = uncheckedArgument (Sample.call3 (Sample.Int32 1)) 0 /\
  Sample.lazy false (Sample.call (Sample.Int32 1)) Sample.start
  = Sample.lazy false (Sample.call3 (Sample.Int32 1)) Sample.start.
Proof.
  split; [reflexivity |].
  exact (proj1 (@C10_only_first_argument_is_read Sample.values nat nat
                  Sample.describe Sample.table Sample.blob Sample.file Sample.bytes
                  false 7%nat (Sample.call (Sample.Int32 1))
                  (Sample.call3 (Sample.Int32 1)) Sample.start eq_refl)).
Defined.

(** Without determinism repeated dispatch need not agree: entry [1] of the
    sample table returns the number of sources built so far. *)
Example repeated_dispatch_of_counting_entry :
  let callFrame := Sample.call (Sample.Int32 (-2)) in
  fst (Sample.lazy false callFrame Sample.start) = Returned (Sample.Int32 0) /\
  fst (Sample.lazy false callFrame (snd (Sample.lazy false callFrame Sample.start)))
  = Returned (Sample.Int32 1).
Proof. split; reflexivity. Qed.

(** The least [int]: the index is the greatest [int] and the read is far
    outside the sample table. *)
Example least_token_reads_last_index :
  fst (Sample.lazy false (Sample.call (Sample.Int32 INT32_MIN)) Sample.start)
  = UndefinedBehaviour INT32_MAX.
Proof. reflexivity. Qed.

(** ** The further properties on the sample runtime *)

(** Token [-2] stays inside the two-entry sample table and returns. *)
Lemma X4_witness :
  exists v,
    fst (Sample.lazy true (Sample.call (Sample.Int32 (-2))) Sample.start) = Returned v.
Proof.
  apply (@X4_returns_exactly_when Sample.values nat nat
           Sample.describe Sample.table Sample.blob Sample.file Sample.bytes
           true 7%nat (Sample.call (Sample.Int32 (-2))) Sample.start).
  - intros _. vm_compute. reflexivity.
  - split; [right; reflexivity |].
    left. unfold table_token. vm_compute. repeat split; discriminate.
Defined.

(** Token [-2] runs the same in the debug and in the release build. *)
Lemma X6_witness :
  isInt32 (uncheckedArgument (Sample.call (Sample.Int32 (-2))) 0) = true /\
  Sample.lazy true (Sample.call (Sample.Int32 (-2))) Sample.start
  = Sample.lazy false (Sample.call (Sample.Int32 (-2))) Sample.start.
Proof.
  split; [reflexivity |].
  destruct (@X6_builds_agree_on_integer_arguments Sample.values nat nat
              Sample.describe Sample.table Sample.blob Sample.file Sample.bytes
              7%nat (Sample.call (Sample.Int32 (-2))) Sample.start eq_refl)
    as (Hsame & _ & _).
  apply Hsame. left. unfold table_token. vm_compute. repeat split; discriminate.
Defined.

(** Token [-2] on the sample table with one more entry appended. *)
Lemma X7_witness :
  @jsDollarLazy Sample.values nat nat Sample.describe
    (Sample.table ++ [Sample.fixed 300])
    Sample.blob Sample.file Sample.bytes true 7%nat
    (Sample.call (Sample.Int32 (-2))) Sample.start
  = Sample.lazy true (Sample.call (Sample.Int32 (-2))) Sample.start.
Proof.
  apply (@X7_appending_entries_keeps_tokens Sample.values nat nat
           Sample.describe Sample.table Sample.blob Sample.file Sample.bytes
           true 7%nat (Sample.call (Sample.Int32 (-2))) Sample.start
           [Sample.fixed 300]).
  intros _. vm_compute. reflexivity.
Defined.

(** The least [int] is the token of the greatest position. *)
Lemma X8_witness :
  INT32_MIN <= INT32_MIN < 0 /\
  sub32 (neg32 INT32_MIN) 1 = INT32_MAX /\
  sub32 (neg32 INT32_MAX) 1 = INT32_MIN.
Proof.
  assert (Hmin : INT32_MIN <= INT32_MIN < 0) by (unfold INT32_MIN; lia).
  split; [exact Hmin |]. split; [reflexivity |].
  exact (proj2 (proj2 (X8_tokens_and_positions_one_to_one INT32_MIN Hmin))).
Defined.

(** Token [-1]: the sample table and the steady table hold the same first
    entry and differ in the second. *)
Lemma X9_witness :
  Sample.lazy true (Sample.call (Sample.Int32 (-1))) Sample.start
  = Sample.lazy_steady true (Sample.call (Sample.Int32 (-1))) Sample.start.
Proof.
  apply (@X9_only_one_table_position_matters Sample.values nat nat
           Sample.describe Sample.blob Sample.file Sample.bytes
           true 7%nat (Sample.call (Sample.Int32 (-1))) Sample.start
           Sample.table Sample.steady_table).
  intros _. exists (Sample.fixed 100). split; reflexivity.
Defined.
